(** * Key-Presser: the key table, lookup and the held-keys bookkeeping

    A shallow embedding of [key_presser.py] (class [KeyPresser]).

    - Key names are Python [str] values; they are modelled as [string],
      the bytes of their UTF-8 form.  [str.upper] and [str.lower] are
      library calls that know all of Unicode.  The methods that call
      [str.upper] are written over the case map ([get_hex_key_code_with],
      [hold_key_with], [release_key_with]); what holds for every string is
      stated there, for any case map.  [Str.upper] and [Str.lower] are the
      two calls on ASCII text, where they are the byte-wise maps
      a-z -> A-Z and A-Z -> a-z; the methods under their source names use
      [Str.upper], and the statements about them concern ASCII names: by
      [valid_key] (a name whose byte-wise upper-casing is in the table is
      an ASCII name), by [Str.is_ascii], or by the names a reachable state
      can hold.
    - [KEY_CODES] is a dict literal.  Its iteration order is its source
      order and the error message of [get_hex_key_code] prints the keys
      in that order, so the table is kept as an association list.
    - [pressed_keys] is a Python [set] of strings: a [gset string].
    - [send_input] is the external [SendInput] call.  Its return value is
      discarded by the code; the model records every call in a log.
    - Python exceptions leave earlier mutations in place, so an outcome
      carries the state reached when the exception was raised. *)

From Stdlib Require Import ZArith QArith Qround Ascii String List.
From stdpp Require Import base gmap sets list strings.
Import ListNotations.

Local Open Scope Z_scope.
Local Open Scope string_scope.

(** ** Strings: [str.upper], [str.lower], [str.join] *)

Module Str.

Definition is_lower (c : ascii) : bool :=
  let n := N_of_ascii c in ((97 <=? n) && (n <=? 122))%N.

Definition is_upper (c : ascii) : bool :=
  let n := N_of_ascii c in ((65 <=? n) && (n <=? 90))%N.

Definition upper_char (c : ascii) : ascii :=
  if is_lower c then ascii_of_N (N_of_ascii c - 32) else c.

Definition lower_char (c : ascii) : ascii :=
  if is_upper c then ascii_of_N (N_of_ascii c + 32) else c.

Fixpoint map_chars (f : ascii -> ascii) (s : string) : string :=
  match s with
  | EmptyString => EmptyString
  | String c s' => String (f c) (map_chars f s')
  end.

(** [s.upper()] and [s.lower()] for an ASCII string [s]. *)
Definition upper (s : string) : string := map_chars upper_char s.
Definition lower (s : string) : string := map_chars lower_char s.

(** [s.isascii()]: every byte is below 128. *)
Fixpoint is_ascii (s : string) : bool :=
  match s with
  | EmptyString => true
  | String c s' => (N_of_ascii c <? 128)%N && is_ascii s'
  end.

(** [sep.join(items)] *)
Fixpoint join (sep : string) (items : list string) : string :=
  match items with
  | [] => ""
  | [x] => x
  | x :: rest => x ++ sep ++ join sep rest
  end.

(** [s.split(sep)] for a non-empty separator: [cur] holds, reversed, the
    characters of the piece being read. *)
Fixpoint split_go (sep : string) (cur : list ascii) (s : string) (fuel : nat)
  : list string :=
  match fuel with
  | O => [string_of_list_ascii (rev cur)]
  | S fuel' =>
      if String.prefix sep s
      then string_of_list_ascii (rev cur)
             :: split_go sep [] (String.substring (String.length sep)
                                   (String.length s - String.length sep) s) fuel'
      else match s with
           | EmptyString => [string_of_list_ascii (rev cur)]
           | String c s' => split_go sep (c :: cur) s' fuel'
           end
  end.

Definition split (sep s : string) : list string :=
  split_go sep [] s (S (String.length s)).

End Str.

(** ** The class constants *)

(** [KeyPresser.KEY_CODES], in source order. *)
Definition KEY_CODES : list (string * Z) :=
  [
    ("Q", 0x10); ("E", 0x12); ("W", 0x11);
    ("R", 0x13); ("T", 0x14); ("Y", 0x15);
    ("U", 0x16); ("I", 0x17); ("O", 0x18);
    ("P", 0x19); ("A", 0x1E); ("S", 0x1F);
    ("D", 0x20); ("F", 0x21); ("G", 0x22);
    ("H", 0x23); ("J", 0x24); ("K", 0x25);
    ("L", 0x26); ("Z", 0x2C); ("X", 0x2D);
    ("C", 0x2E); ("V", 0x2F); ("B", 0x30);
    ("N", 0x31); ("M", 0x32); ("LEFT_ARROW", 0xCB);
    ("RIGHT_ARROW", 0xCD); ("UP_ARROW", 0xC8); ("DOWN_ARROW", 0xD0);
    ("ESC", 0x01); ("ONE", 0x02); ("TWO", 0x03);
    ("THREE", 0x04); ("FOUR", 0x05); ("FIVE", 0x06);
    ("SIX", 0x07); ("SEVEN", 0x08); ("EIGHT", 0x09);
    ("NINE", 0x0A); ("ZERO", 0x0B); ("MINUS", 0x0C);
    ("EQUALS", 0x0D); ("BACKSPACE", 0x0E); ("APOSTROPHE", 0x28);
    ("SEMICOLON", 0x27); ("TAB", 0x0F); ("CAPSLOCK", 0x3A);
    ("ENTER", 0x1C); ("LEFT_CONTROL", 0x1D); ("LEFT_ALT", 0x38);
    ("LEFT_SHIFT", 0x2A); ("RIGHT_SHIFT", 0x36); ("TILDE", 0x29);
    ("PRINTSCREEN", 0x37); ("NUM_LOCK", 0x45); ("SPACE", 0x39);
    ("DELETE", 0x53); ("COMMA", 0x33); ("PERIOD", 0x34);
    ("BACKSLASH", 0x35); ("FORWARDSLASH", 0x2B); ("LEFT_BRACKET", 0x1A);
    ("RIGHT_BRACKET", 0x1B); ("F1", 0x3B); ("F2", 0x3C);
    ("F3", 0x3D); ("F4", 0x3E); ("F5", 0x3F);
    ("F6", 0x40); ("F7", 0x41); ("F8", 0x42);
    ("F9", 0x43); ("F10", 0x44); ("F11", 0x57);
    ("F12", 0x58); ("NUMPAD_0", 0x52); ("NUMPAD_1", 0x4F);
    ("NUMPAD_2", 0x50); ("NUMPAD_3", 0x51); ("NUMPAD_4", 0x4B);
    ("NUMPAD_5", 0x4C); ("NUMPAD_6", 0x4D); ("NUMPAD_7", 0x47);
    ("NUMPAD_8", 0x48); ("NUMPAD_9", 0x49); ("NUMPAD_PLUS", 0x4E);
    ("NUMPAD_MINUS", 0x4A); ("NUMPAD_PERIOD", 0x53); ("NUMPAD_ENTER", 0x9C);
    ("NUMPAD_BACKSLASH", 0xB5); ("LEFT_MOUSE", 0x100); ("RIGHT_MOUSE", 0x101);
    ("MIDDLE_MOUSE", 0x102); ("MOUSE3", 0x103); ("MOUSE4", 0x104);
    ("MOUSE5", 0x105); ("MOUSE6", 0x106); ("MOUSE7", 0x107);
    ("MOUSE_WHEEL_UP", 0x108); ("MOUSE_WHEEL_DOWN", 0x109)
  ].

Definition KEY_EVENT_KEY_UP : Z := 0x0002.
Definition KEY_EVENT_SCANCODE : Z := 0x0008.
Definition INPUT_KEYBOARD : Z := 1.

(** [KEY_CODES.keys()] *)
Definition keys (d : list (string * Z)) : list string := map fst d.

(** [d[k]] / [k in d] on a dict literal: the entry of key [k]. *)
Fixpoint dict_get (d : list (string * Z)) (k : string) : option Z :=
  match d with
  | [] => None
  | (k', v) :: d' => if String.eqb k k' then Some v else dict_get d' k
  end.

(** ** The controller state, exceptions and the calls to the outside *)

(** The fields of [KEYBDINPUT] and [INPUT] the code fills in.  The
    [dwExtraInfo] pointer (to a fresh [c_ulong(0)]) carries no data. *)
Record KEYBDINPUT := mkKEYBDINPUT
  { wVk : Z; wScan : Z; dwFlags : Z; time : Z }.

Record INPUT := mkINPUT { input_type : Z; ki : KEYBDINPUT }.

(** [self.pressed_keys], and the log of the [self.send_input] calls made so
    far (oldest first). *)
Record KeyPresser := mkKeyPresser
  { pressed_keys : gset string; sent : list INPUT }.

(** [__init__] *)
Definition init : KeyPresser :=
  {| pressed_keys := ∅; sent := [] |}.

Inductive exn :=
| ValueError (msg : string)
| OverflowError (msg : string).

(** The result of a pure call that may raise. *)
Inductive result (A : Type) :=
| Ok (a : A)
| Error (e : exn).
Arguments Ok {A} a.
Arguments Error {A} e.

(** The result of a method call: a value or an exception, and in both cases
    the object as the call left it. *)
Inductive outcome (A : Type) :=
| Returns (a : A) (s : KeyPresser)
| Raises (e : exn) (s : KeyPresser).
Arguments Returns {A} a s.
Arguments Raises {A} e s.

Definition state_of {A} (o : outcome A) : KeyPresser :=
  match o with Returns _ s => s | Raises _ s => s end.

Definition M (A : Type) : Type := KeyPresser -> outcome A.

#[global] Instance M_ret : MRet M := fun A a s => Returns a s.

#[global] Instance M_bind : MBind M := fun A B f m s =>
  match m s with
  | Returns a s' => f a s'
  | Raises e s' => Raises e s'
  end.

Definition lift {A} (r : result A) : M A := fun s =>
  match r with Ok a => Returns a s | Error e => Raises e s end.

(** [for x in l: body(x)] *)
Fixpoint for_each {A} (l : list A) (body : A -> M unit) : M unit :=
  match l with
  | [] => mret tt
  | x :: l' => body x ;; for_each l' body
  end.

(** [self.send_input(1, pointer(keyboard_input), sizeof(keyboard_input))];
    the count it returns is dropped by every caller. *)
Definition send_input (i : INPUT) : M unit := fun s =>
  Returns tt {| pressed_keys := pressed_keys s; sent := sent s ++ [i] |}.

(** [self.pressed_keys.add(k)] and [self.pressed_keys.discard(k)] *)
Definition add_key (k : string) : M unit := fun s =>
  Returns tt {| pressed_keys := {[k]} ∪ pressed_keys s; sent := sent s |}.

Definition discard_key (k : string) : M unit := fun s =>
  Returns tt {| pressed_keys := pressed_keys s ∖ {[k]}; sent := sent s |}.

(** [time.sleep(seconds)] for a finite number of seconds, kept as the
    rational it denotes.  The interpreter first turns the length into a
    signed 64-bit count of nanoseconds, rounding away from zero, and raises
    [OverflowError] when the count does not fit; it then raises [ValueError]
    on a negative count; otherwise it waits and returns (the time that
    passes is not part of the state).  A float length is taken as the exact
    number it holds, so lengths within a rounding step of the two ends of
    the 64-bit range are not told apart from their neighbours; no statement
    below depends on them. *)
Definition PyTime_MIN : Z := - 2 ^ 63.
Definition PyTime_MAX : Z := 2 ^ 63 - 1.

Definition round_away (q : Q) : Z :=
  if Qle_bool 0 q then Qceiling q else Qfloor q.

Definition to_nanoseconds (seconds : Q) : option Z :=
  let ns := round_away (seconds * inject_Z (10 ^ 9)) in
  if Z.leb PyTime_MIN ns && Z.leb ns PyTime_MAX then Some ns else None.

Definition sleep (seconds : Q) : M unit := fun s =>
  match to_nanoseconds seconds with
  | None =>
      Raises (OverflowError "timestamp too large to convert to C _PyTime_t") s
  | Some ns =>
      if Z.ltb ns 0
      then Raises (ValueError "sleep length must be non-negative") s
      else Returns tt s
  end.

(** Lengths of at most this many seconds are within every limit
    [time.sleep] has had on Windows (the tightest was [ULONG_MAX]
    milliseconds). *)
Definition sleep_accepted : Q := inject_Z 4294967.

(** ** The methods of [KeyPresser] *)

Definition invalid_key_message (key_name : string) : string :=
  let valid_keys := Str.join ", " (keys KEY_CODES) in
  key_name ++ " is not a valid key name. "
    ++ "Please choose from the following valid keys: "
    ++ valid_keys.

(** The methods that call [key_name.upper()], over the case map [upper]. *)
Definition get_hex_key_code_with (upper : string -> string)
    (key_name : string) : result Z :=
  let key_name := upper key_name in
  match dict_get KEY_CODES key_name with
  | None => Error (ValueError (invalid_key_message key_name))
  | Some hex_code => Ok hex_code
  end.

Definition key_down_input (hex_key_code : Z) : INPUT :=
  mkINPUT INPUT_KEYBOARD (mkKEYBDINPUT 0 hex_key_code KEY_EVENT_SCANCODE 0).

Definition key_up_input (hex_key_code : Z) : INPUT :=
  mkINPUT INPUT_KEYBOARD
    (mkKEYBDINPUT 0 hex_key_code (Z.lor KEY_EVENT_SCANCODE KEY_EVENT_KEY_UP) 0).

Definition hold_key_with (upper : string -> string)
    (key_name : string) : M unit :=
  hex_key_code ← lift (get_hex_key_code_with upper key_name);
  send_input (key_down_input hex_key_code) ;;
  add_key key_name.

Definition release_key_with (upper : string -> string)
    (key_name : string) : M unit :=
  hex_key_code ← lift (get_hex_key_code_with upper key_name);
  send_input (key_up_input hex_key_code) ;;
  discard_key key_name.

(** The same methods on ASCII names. *)
Definition get_hex_key_code : string -> result Z :=
  get_hex_key_code_with Str.upper.

Definition hold_key : string -> M unit := hold_key_with Str.upper.

Definition release_key : string -> M unit := release_key_with Str.upper.

Definition hold_and_release_key (key_name : string) (seconds : Q) : M unit :=
  hold_key key_name ;;
  sleep seconds ;;
  release_key key_name.

(** [list(self.pressed_keys)] is taken once, before the loop runs. *)
Definition release_all_keys : M unit := fun s =>
  for_each (elements (pressed_keys s)) release_key s.

(** ** Runs of the controller *)

Inductive call :=
| GetHexKeyCode (key_name : string)
| HoldKey (key_name : string)
| ReleaseKey (key_name : string)
| HoldAndReleaseKey (key_name : string) (seconds : Q)
| ReleaseAllKeys.

Definition run (c : call) : M unit :=
  match c with
  | GetHexKeyCode k => lift (get_hex_key_code k) ;; mret tt
  | HoldKey k => hold_key k
  | ReleaseKey k => release_key k
  | HoldAndReleaseKey k d => hold_and_release_key k d
  | ReleaseAllKeys => release_all_keys
  end.

(** The states a controller can be in: the fresh one, and the one any call
    leaves behind, whether it returned or raised. *)
Inductive reachable : KeyPresser -> Prop :=
| reachable_init : reachable init
| reachable_call c s : reachable s -> reachable (state_of (run c s)).

(** The object after one [hold_key("w")]. *)
Definition holding_w : KeyPresser := state_of (hold_key "w" init).

(** The object after [hold_key] of ["A"], ["SPACE"] and ["LEFT_ARROW"]. *)
Definition holding_three : KeyPresser :=
  state_of (run (HoldKey "LEFT_ARROW")
    (state_of (run (HoldKey "SPACE")
      (state_of (run (HoldKey "A") init))))).

(** A key name the table knows, whatever its case. *)
Definition valid_key (k : string) : Prop :=
  is_Some (dict_get KEY_CODES (Str.upper k)).

#[global] Instance valid_key_dec k : Decision (valid_key k).
Proof. unfold valid_key. apply _. Defined.

(** The key-up event that releasing [k] injects. *)
Definition release_event (k : string) : option INPUT :=
  key_up_input <$> dict_get KEY_CODES (Str.upper k).

(** * Properties *)

(** ** Case folding *)

Lemma upper_char_idem c : Str.upper_char (Str.upper_char c) = Str.upper_char c.
Proof. destruct c as [[] [] [] [] [] [] [] []]; reflexivity. Qed.

Lemma upper_lower_char c : Str.upper_char (Str.lower_char c) = Str.upper_char c.
Proof. destruct c as [[] [] [] [] [] [] [] []]; reflexivity. Qed.

Lemma upper_idem s : Str.upper (Str.upper s) = Str.upper s.
Proof.
  unfold Str.upper. induction s as [|c s IH]; [reflexivity|].
  cbn [Str.map_chars]. rewrite upper_char_idem, IH. reflexivity.
Qed.

Lemma upper_lower s : Str.upper (Str.lower s) = Str.upper s.
Proof.
  unfold Str.upper, Str.lower. induction s as [|c s IH]; [reflexivity|].
  cbn [Str.map_chars]. rewrite upper_lower_char, IH. reflexivity.
Qed.

(** ** The table *)

Lemma dict_get_Some d k v : dict_get d k = Some v -> In (k, v) d.
Proof.
  induction d as [|[k' v'] d IH]; simpl; [discriminate|].
  destruct (String.eqb_spec k k') as [->|Hne].
  - intros [= ->]. left. reflexivity.
  - intros H. right. apply IH, H.
Qed.

Lemma dict_get_keys d k : is_Some (dict_get d k) <-> In k (keys d).
Proof.
  induction d as [|[k' v'] d IH]; simpl.
  - split; [intros [? [=]]|intros []].
  - destruct (String.eqb_spec k k') as [->|Hne].
    + split; [left; reflexivity|eauto].
    + rewrite IH. split; [tauto|]. intros [Heq|H]; [congruence|exact H].
Qed.

Lemma dict_get_In d k v : NoDup (keys d) -> In (k, v) d -> dict_get d k = Some v.
Proof.
  induction d as [|[k' v'] d IH]; simpl; [intros _ []|].
  intros Hnd [[= -> ->]|Hin].
  - rewrite String.eqb_refl. reflexivity.
  - apply NoDup_cons in Hnd as [Hk' Hnd].
    destruct (String.eqb_spec k k') as [->|Hne].
    + exfalso. apply Hk'. apply list_elem_of_In.
      change k' with (fst (k', v)). apply in_map, Hin.
    + apply IH; assumption.
Qed.

(** The dict literal repeats no key, so reading it front to back is the
    dict's own lookup. *)
Lemma keys_NoDup : NoDup (keys KEY_CODES).
Proof. apply (bool_decide_unpack _). vm_compute. exact I. Qed.

Lemma keys_split : Str.split ", " (Str.join ", " (keys KEY_CODES)) = keys KEY_CODES.
Proof. vm_compute. reflexivity. Qed.

(** ** The set operations *)

Lemma add_present (k : string) (S : gset string) : k ∈ {[k]} ∪ S.
Proof. apply elem_of_union. left. apply elem_of_singleton. reflexivity. Qed.

Lemma discard_gone (k : string) (S : gset string) : k ∉ S ∖ {[k]}.
Proof.
  rewrite elem_of_difference, elem_of_singleton. intros [_ H]. apply H.
  reflexivity.
Qed.

Lemma discard_absent (k : string) (S : gset string) : k ∉ S -> S ∖ {[k]} = S.
Proof.
  intros Hk. apply set_eq. intros x.
  rewrite elem_of_difference, elem_of_singleton. split; [tauto|].
  intros Hx. split; [exact Hx|]. intros ->. contradiction.
Qed.

Lemma discard_other (k k' : string) (S : gset string) :
  k ∈ S -> k' <> k -> k ∈ S ∖ {[k']}.
Proof.
  intros Hk Hne. rewrite elem_of_difference, elem_of_singleton.
  split; [exact Hk|]. intros ->. apply Hne. reflexivity.
Qed.

(** ** One call *)

Lemma get_hex_key_code_valid k c :
  dict_get KEY_CODES (Str.upper k) = Some c -> get_hex_key_code k = Ok c.
Proof.
  intros H. unfold get_hex_key_code, get_hex_key_code_with. rewrite H.
  reflexivity.
Qed.

Lemma get_hex_key_code_invalid k :
  ~ valid_key k ->
  get_hex_key_code k = Error (ValueError (invalid_key_message (Str.upper k))).
Proof.
  unfold valid_key, get_hex_key_code, get_hex_key_code_with. intros H.
  destruct (dict_get KEY_CODES (Str.upper k)); [|reflexivity].
  exfalso. apply H. eauto.
Qed.

Lemma hold_key_valid k c s :
  dict_get KEY_CODES (Str.upper k) = Some c ->
  hold_key k s =
    Returns tt {| pressed_keys := {[k]} ∪ pressed_keys s;
                  sent := sent s ++ [key_down_input c] |}.
Proof.
  intros H. unfold hold_key, hold_key_with, mbind, M_bind, lift.
  fold get_hex_key_code.
  rewrite (get_hex_key_code_valid _ _ H). reflexivity.
Qed.

Lemma hold_key_invalid k s :
  ~ valid_key k ->
  hold_key k s = Raises (ValueError (invalid_key_message (Str.upper k))) s.
Proof.
  intros H. unfold hold_key, hold_key_with, mbind, M_bind, lift.
  fold get_hex_key_code.
  rewrite (get_hex_key_code_invalid _ H). reflexivity.
Qed.

Lemma release_key_valid k c s :
  dict_get KEY_CODES (Str.upper k) = Some c ->
  release_key k s =
    Returns tt {| pressed_keys := pressed_keys s ∖ {[k]};
                  sent := sent s ++ [key_up_input c] |}.
Proof.
  intros H. unfold release_key, release_key_with, mbind, M_bind, lift.
  fold get_hex_key_code.
  rewrite (get_hex_key_code_valid _ _ H). reflexivity.
Qed.

Lemma release_key_invalid k s :
  ~ valid_key k ->
  release_key k s = Raises (ValueError (invalid_key_message (Str.upper k))) s.
Proof.
  intros H. unfold release_key, release_key_with, mbind, M_bind, lift.
  fold get_hex_key_code.
  rewrite (get_hex_key_code_invalid _ H). reflexivity.
Qed.

(** The failing lookup, whatever the case map is. *)
Lemma get_hex_key_code_with_unknown (upper : string -> string) k :
  dict_get KEY_CODES (upper k) = None ->
  get_hex_key_code_with upper k
    = Error (ValueError (invalid_key_message (upper k))).
Proof. intros H. unfold get_hex_key_code_with. rewrite H. reflexivity. Qed.

Lemma hold_key_with_unknown (upper : string -> string) k s :
  dict_get KEY_CODES (upper k) = None ->
  hold_key_with upper k s
    = Raises (ValueError (invalid_key_message (upper k))) s.
Proof.
  intros H. unfold hold_key_with, mbind, M_bind, lift.
  rewrite (get_hex_key_code_with_unknown upper k H). reflexivity.
Qed.

Lemma release_key_with_unknown (upper : string -> string) k s :
  dict_get KEY_CODES (upper k) = None ->
  release_key_with upper k s
    = Raises (ValueError (invalid_key_message (upper k))) s.
Proof.
  intros H. unfold release_key_with, mbind, M_bind, lift.
  rewrite (get_hex_key_code_with_unknown upper k H). reflexivity.
Qed.

(** The successful press, whatever the case map is: the string stored is
    the caller's. *)
Lemma hold_key_with_found (upper : string -> string) k c s :
  dict_get KEY_CODES (upper k) = Some c ->
  hold_key_with upper k s =
    Returns tt {| pressed_keys := {[k]} ∪ pressed_keys s;
                  sent := sent s ++ [key_down_input c] |}.
Proof.
  intros H. unfold hold_key_with, get_hex_key_code_with, mbind, M_bind, lift.
  rewrite H. reflexivity.
Qed.

(** A name outside ASCII is accepted when the case map sends it into the
    table, as [str.upper] does with the long s. *)
Example long_s_is_accepted (upper : string -> string) (s : KeyPresser) :
  upper "ſpace" = "SPACE" ->
  hold_key_with upper "ſpace" s =
    Returns tt {| pressed_keys := {["ſpace"]} ∪ pressed_keys s;
                  sent := sent s ++ [key_down_input 0x39] |}.
Proof.
  intros H. apply hold_key_with_found. rewrite H. reflexivity.
Qed.

Lemma valid_key_code k : valid_key k -> exists c, dict_get KEY_CODES (Str.upper k) = Some c.
Proof. intros [c H]. exists c. exact H. Qed.

(** ** Lookup *)

(** C4. For a valid key name [k], [get_hex_key_code] returns one scancode,
    and the same one for [k.upper()] and for [k.lower()]. *)
Theorem lookup_case_insensitive (k : string) :
  valid_key k ->
  exists c,
    get_hex_key_code k = Ok c /\
    get_hex_key_code (Str.upper k) = Ok c /\
    get_hex_key_code (Str.lower k) = Ok c.
Proof.
  intros Hk. destruct (valid_key_code k Hk) as [c Hc]. exists c.
  repeat split; apply get_hex_key_code_valid.
  - exact Hc.
  - rewrite upper_idem. exact Hc.
  - rewrite upper_lower. exact Hc.
Qed.

Lemma lookup_case_insensitive_witness :
  valid_key "Left_Arrow" /\
  exists c,
    get_hex_key_code "Left_Arrow" = Ok c /\
    get_hex_key_code (Str.upper "Left_Arrow") = Ok c /\
    get_hex_key_code (Str.lower "Left_Arrow") = Ok c.
Proof.
  split; [vm_compute; eauto|].
  apply (lookup_case_insensitive "Left_Arrow"). vm_compute. eauto.
Defined.

(** The list of names the error message prints is the table's key list:
    every name of the table occurs in it once, and nothing else does. *)
Lemma valid_names_once (n : string) :
  count_occ string_dec (keys KEY_CODES) n =
    match dict_get KEY_CODES n with Some _ => 1%nat | None => 0%nat end.
Proof.
  destruct (dict_get KEY_CODES n) as [c|] eqn:Hn.
  - apply NoDup_count_occ'.
    + apply NoDup_ListNoDup, keys_NoDup.
    + apply dict_get_keys. rewrite Hn. eauto.
  - apply count_occ_not_In. rewrite <- dict_get_keys, Hn.
    intros [? [=]].
Qed.

(** C3. Whatever the case map [upper] is: a string whose upper-cased form
    is not a key of the table makes [get_hex_key_code], [hold_key] and
    [release_key] raise the same [ValueError] and change nothing; the
    message starts with the upper-cased form and ends with the
    comma-separated list of names, in which every name of the table occurs
    exactly once. *)
Theorem unknown_key_raises (upper : string -> string)
    (k : string) (s : KeyPresser) :
  dict_get KEY_CODES (upper k) = None ->
  exists msg names,
    get_hex_key_code_with upper k = Error (ValueError msg) /\
    hold_key_with upper k s = Raises (ValueError msg) s /\
    release_key_with upper k s = Raises (ValueError msg) s /\
    msg = upper k ++ " is not a valid key name. "
            ++ "Please choose from the following valid keys: "
            ++ Str.join ", " names /\
    Str.split ", " (Str.join ", " names) = names /\
    (forall n, is_Some (dict_get KEY_CODES n) ->
               count_occ string_dec names n = 1%nat) /\
    (forall n, In n names -> is_Some (dict_get KEY_CODES n)).
Proof.
  intros Hk.
  exists (invalid_key_message (upper k)), (keys KEY_CODES).
  split; [apply get_hex_key_code_with_unknown, Hk|].
  split; [apply hold_key_with_unknown, Hk|].
  split; [apply release_key_with_unknown, Hk|].
  split; [reflexivity|].
  split; [apply keys_split|].
  split.
  - intros n [c Hn]. rewrite valid_names_once, Hn. reflexivity.
  - intros n Hn. apply dict_get_keys, Hn.
Qed.

Lemma unknown_key_raises_witness :
  dict_get KEY_CODES (Str.upper "ctrl") = None /\
  exists msg names,
    get_hex_key_code_with Str.upper "ctrl" = Error (ValueError msg) /\
    hold_key_with Str.upper "ctrl" init = Raises (ValueError msg) init /\
    release_key_with Str.upper "ctrl" init = Raises (ValueError msg) init /\
    msg = Str.upper "ctrl" ++ " is not a valid key name. "
            ++ "Please choose from the following valid keys: "
            ++ Str.join ", " names /\
    Str.split ", " (Str.join ", " names) = names /\
    (forall n, is_Some (dict_get KEY_CODES n) ->
               count_occ string_dec names n = 1%nat) /\
    (forall n, In n names -> is_Some (dict_get KEY_CODES n)).
Proof.
  assert (H : dict_get KEY_CODES (Str.upper "ctrl") = None) by reflexivity.
  split; [exact H|]. apply (unknown_key_raises Str.upper "ctrl" init H).
Defined.

(** C9. ["space"] looks up to 0x39 and ["f12"] to 0x58;
    ["nonexistent_key"] raises the [ValueError] whose message lists the
    names of the table, all 101 of them. *)
Theorem lookup_scenario :
  get_hex_key_code "space" = Ok 0x39 /\
  get_hex_key_code "f12" = Ok 0x58 /\
  get_hex_key_code "nonexistent_key" =
    Error (ValueError
             ("NONEXISTENT_KEY is not a valid key name. "
                ++ "Please choose from the following valid keys: "
                ++ Str.join ", " (keys KEY_CODES))) /\
  Str.split ", " (Str.join ", " (keys KEY_CODES)) = keys KEY_CODES /\
  length (keys KEY_CODES) = 101%nat.
Proof.
  split; [reflexivity|]. split; [reflexivity|].
  split; [reflexivity|]. split; [apply keys_split|reflexivity].
Qed.

(** ** Press and release *)

(** C2. For a valid key name [k]: [hold_key k] returns and leaves [k] in
    [pressed_keys]; [hold_key k] followed by [release_key k] returns and
    leaves [k] out of it. *)
Theorem hold_then_release (k : string) (s : KeyPresser) :
  valid_key k ->
  (exists s1, hold_key k s = Returns tt s1 /\ k ∈ pressed_keys s1) /\
  (exists s2, (hold_key k ;; release_key k) s = Returns tt s2 /\
              k ∉ pressed_keys s2).
Proof.
  intros Hk. destruct (valid_key_code k Hk) as [c Hc]. split.
  - eexists. split; [apply (hold_key_valid k c s Hc)|].
    cbn [pressed_keys]. apply add_present.
  - eexists. split.
    + unfold mbind, M_bind. rewrite (hold_key_valid k c s Hc).
      apply (release_key_valid k c _ Hc).
    + cbn [pressed_keys]. apply discard_gone.
Qed.

Lemma hold_then_release_witness :
  valid_key "enter" /\
  (exists s1, hold_key "enter" init = Returns tt s1 /\
              "enter" ∈ pressed_keys s1) /\
  (exists s2, (hold_key "enter" ;; release_key "enter") init = Returns tt s2 /\
              "enter" ∉ pressed_keys s2).
Proof.
  split; [vm_compute; eauto|].
  apply (hold_then_release "enter" init). vm_compute. eauto.
Defined.

(** C7. Whatever the case map [upper] is: on a string whose upper-cased
    form is not a key of the table, [hold_key] raises [ValueError] and
    leaves the object as it found it: [pressed_keys] is the same set and no
    [send_input] call was made. *)
Theorem hold_key_unknown_atomic (upper : string -> string)
    (k : string) (s : KeyPresser) :
  dict_get KEY_CODES (upper k) = None ->
  exists msg,
    hold_key_with upper k s = Raises (ValueError msg) s /\
    pressed_keys (state_of (hold_key_with upper k s)) = pressed_keys s /\
    sent (state_of (hold_key_with upper k s)) = sent s.
Proof.
  intros Hk. eexists. rewrite (hold_key_with_unknown upper k s Hk).
  repeat split.
Qed.

Lemma hold_key_unknown_atomic_witness :
  dict_get KEY_CODES (Str.upper "shift") = None /\
  exists msg,
    hold_key_with Str.upper "shift" holding_w
      = Raises (ValueError msg) holding_w /\
    pressed_keys (state_of (hold_key_with Str.upper "shift" holding_w))
      = pressed_keys holding_w /\
    sent (state_of (hold_key_with Str.upper "shift" holding_w))
      = sent holding_w.
Proof.
  assert (H : dict_get KEY_CODES (Str.upper "shift") = None) by reflexivity.
  split; [exact H|].
  apply (hold_key_unknown_atomic Str.upper "shift" holding_w H).
Defined.

(** C8. For a valid key name [k] that is not in [pressed_keys],
    [release_key k] returns and [pressed_keys] is the same set as before. *)
Theorem release_key_absent (k : string) (s : KeyPresser) :
  valid_key k ->
  k ∉ pressed_keys s ->
  exists s', release_key k s = Returns tt s' /\
             pressed_keys s' = pressed_keys s.
Proof.
  intros Hk Hnot. destruct (valid_key_code k Hk) as [c Hc].
  eexists. split; [apply (release_key_valid k c s Hc)|].
  cbn [pressed_keys]. apply discard_absent, Hnot.
Qed.

Lemma release_key_absent_witness :
  valid_key "tab" /\ ("tab" ∉ pressed_keys holding_w) /\
  exists s', release_key "tab" holding_w = Returns tt s' /\
             pressed_keys s' = pressed_keys holding_w.
Proof.
  assert (Hk : valid_key "tab") by (vm_compute; eauto).
  assert (Hn : "tab" ∉ pressed_keys holding_w).
  { apply (bool_decide_unpack _). vm_compute. exact I. }
  split; [exact Hk|]. split; [exact Hn|].
  apply (release_key_absent "tab" holding_w Hk Hn).
Defined.

(** C10. [hold_key] puts the caller's own string into [pressed_keys], not
    its upper-cased form.  For a valid name [k] that is not in upper case
    and another spelling [k'] of the same key: after [hold_key k] on a fresh
    object the set is [{k}] and the upper-cased name is not in it; after
    [hold_key k] and [release_key k'], [k] is still held; after [hold_key k]
    and [hold_key k'] both strings are held, as two entries. *)
Theorem held_names_keep_their_case (k k' : string) (s : KeyPresser) :
  valid_key k ->
  Str.upper k <> k ->
  Str.upper k' = Str.upper k ->
  k' <> k ->
  (exists s0, hold_key k init = Returns tt s0 /\
              pressed_keys s0 = {[k]} /\ Str.upper k ∉ pressed_keys s0) /\
  (exists s1, (hold_key k ;; release_key k') s = Returns tt s1 /\
              k ∈ pressed_keys s1) /\
  (exists s2, (hold_key k ;; hold_key k') s = Returns tt s2 /\
              k ∈ pressed_keys s2 /\ k' ∈ pressed_keys s2) /\
  (exists s3, (hold_key k ;; hold_key k') init = Returns tt s3 /\
              size (pressed_keys s3) = 2%nat).
Proof.
  intros Hk Hup Hsame Hne. destruct (valid_key_code k Hk) as [c Hc].
  assert (Hc' : dict_get KEY_CODES (Str.upper k') = Some c)
    by (rewrite Hsame; exact Hc).
  split; [|split; [|split]].
  - eexists. split; [apply (hold_key_valid k c init Hc)|]. cbn [pressed_keys init]. split.
    + apply union_empty_r_L.
    + rewrite union_empty_r_L, elem_of_singleton. exact Hup.
  - eexists. split.
    + unfold mbind, M_bind. rewrite (hold_key_valid k c s Hc).
      apply (release_key_valid k' c _ Hc').
    + cbn [pressed_keys init]. apply discard_other; [apply add_present|exact Hne].
  - eexists. split.
    + unfold mbind, M_bind. rewrite (hold_key_valid k c s Hc).
      apply (hold_key_valid k' c _ Hc').
    + cbn [pressed_keys init]. split; [|apply add_present].
      apply elem_of_union. right. apply add_present.
  - eexists. split.
    + unfold mbind, M_bind. rewrite (hold_key_valid k c init Hc).
      apply (hold_key_valid k' c _ Hc').
    + cbn [pressed_keys init]. rewrite union_empty_r_L, size_union.
      * rewrite !size_singleton. reflexivity.
      * apply disjoint_singleton_l. rewrite elem_of_singleton. exact Hne.
Qed.

Lemma held_names_keep_their_case_witness :
  valid_key "space" /\ Str.upper "space" <> "space" /\
  Str.upper "Space" = Str.upper "space" /\ "Space" <> "space" /\
  (exists s0, hold_key "space" init = Returns tt s0 /\
              pressed_keys s0 = {["space"]} /\
              Str.upper "space" ∉ pressed_keys s0) /\
  (exists s1, (hold_key "space" ;; release_key "Space") holding_w
                = Returns tt s1 /\
              "space" ∈ pressed_keys s1) /\
  (exists s2, (hold_key "space" ;; hold_key "Space") holding_w
                = Returns tt s2 /\
              "space" ∈ pressed_keys s2 /\ "Space" ∈ pressed_keys s2) /\
  (exists s3, (hold_key "space" ;; hold_key "Space") init = Returns tt s3 /\
              size (pressed_keys s3) = 2%nat).
Proof.
  assert (H1 : valid_key "space") by (vm_compute; eauto).
  assert (H2 : Str.upper "space" <> "space") by (vm_compute; discriminate).
  assert (H3 : Str.upper "Space" = Str.upper "space") by reflexivity.
  assert (H4 : "Space" <> "space") by discriminate.
  repeat (split; [assumption|]).
  apply (held_names_keep_their_case "space" "Space" holding_w H1 H2 H3 H4).
Defined.

(** ** Hold, wait, release *)

(** What [time.sleep] does with a length, read off [sleep]. *)
Lemma sleep_cases (d : Q) (s : KeyPresser) :
  sleep d s = Returns tt s \/ exists e, sleep d s = Raises e s.
Proof.
  unfold sleep. destruct (to_nanoseconds d) as [ns|]; [|right; eauto].
  destruct (Z.ltb ns 0); [right; eauto|left; reflexivity].
Qed.

Lemma sleep_short (d : Q) (s : KeyPresser) :
  (0 <= d)%Q -> (d <= sleep_accepted)%Q -> sleep d s = Returns tt s.
Proof.
  intros Hlo Hhi. unfold sleep, to_nanoseconds, round_away.
  set (q := (d * inject_Z (10 ^ 9))%Q).
  assert (Hq0 : (0 <= q)%Q).
  { unfold q. apply Qmult_le_0_compat; [exact Hlo|]. discriminate. }
  assert (Hq1 : (q <= inject_Z (4294967 * 10 ^ 9))%Q).
  { unfold q. rewrite inject_Z_mult. apply Qmult_le_compat_r; [exact Hhi|].
    discriminate. }
  apply Qle_bool_iff in Hq0 as Hb. rewrite Hb.
  assert (H0 : 0 <= Qceiling q).
  { rewrite Zle_Qle. apply (Qle_trans _ q); [exact Hq0|apply Qle_ceiling]. }
  assert (H1 : Qceiling q <= 4294967 * 10 ^ 9).
  { rewrite <- (Qceiling_Z (4294967 * 10 ^ 9)). apply Qceiling_resp_le, Hq1. }
  assert (Hfit : Z.leb PyTime_MIN (Qceiling q) && Z.leb (Qceiling q) PyTime_MAX
                 = true).
  { apply andb_true_intro. unfold PyTime_MIN, PyTime_MAX.
    split; apply Z.leb_le; lia. }
  rewrite Hfit. destruct (Z.ltb_spec (Qceiling q) 0) as [Hneg|_]; [lia|].
  reflexivity.
Qed.

Lemma sleep_zero (d : Q) (s : KeyPresser) :
  (d == 0)%Q -> sleep d s = Returns tt s.
Proof.
  intros Hd. apply sleep_short; rewrite Hd; discriminate.
Qed.

Lemma sleep_negative (d : Q) (s : KeyPresser) :
  (d < 0)%Q ->
  exists e,
    sleep d s = Raises e s /\
    (e = ValueError "sleep length must be non-negative" \/
     exists msg, e = OverflowError msg) /\
    ((- sleep_accepted <= d)%Q ->
     e = ValueError "sleep length must be non-negative").
Proof.
  intros Hd. unfold sleep, to_nanoseconds, round_away.
  set (q := (d * inject_Z (10 ^ 9))%Q).
  assert (Hq : (q < 0)%Q).
  { pose proof (Qmult_lt_compat_r d 0 (inject_Z (10 ^ 9)) eq_refl Hd) as H.
    rewrite Qmult_0_l in H. exact H. }
  destruct (Qle_bool 0 q) eqn:Hb.
  { apply Qle_bool_iff in Hb. exfalso. apply (Qlt_not_le _ _ Hq Hb). }
  assert (Hneg : Qfloor q < 0).
  { rewrite Zlt_Qlt. apply (Qle_lt_trans _ q); [apply Qfloor_le|exact Hq]. }
  destruct (Z.leb PyTime_MIN (Qfloor q) && Z.leb (Qfloor q) PyTime_MAX) eqn:Hfit.
  - destruct (Z.ltb_spec (Qfloor q) 0) as [_|Hge]; [|lia].
    eexists. split; [reflexivity|]. split; [left; reflexivity|reflexivity].
  - eexists. split; [reflexivity|]. split; [right; eauto|].
    intros Hlo. exfalso.
    assert (Hq1 : (inject_Z (- (4294967 * 10 ^ 9)) <= q)%Q).
    { assert (Heq : (inject_Z (- (4294967 * 10 ^ 9))
                       == - sleep_accepted * inject_Z (10 ^ 9))%Q)
        by reflexivity.
      rewrite Heq. unfold q.
      apply Qmult_le_compat_r; [exact Hlo|discriminate]. }
    assert (H1 : - (4294967 * 10 ^ 9) <= Qfloor q).
    { rewrite <- (Qfloor_Z (- (4294967 * 10 ^ 9))). apply Qfloor_resp_le, Hq1. }
    apply andb_false_iff in Hfit as [Hf|Hf]; apply Z.leb_gt in Hf;
      unfold PyTime_MIN, PyTime_MAX in Hf; lia.
Qed.

(** C5, as stated, fails for a negative duration: [time.sleep(-1)] raises
    after the key went down, [release_key] is never reached, and the key
    stays in [pressed_keys]. *)
Lemma hold_and_release_negative_raises :
  valid_key "SPACE" /\ (-1 <= 0)%Q /\
  hold_and_release_key "SPACE" (-1) init =
    Raises (ValueError "sleep length must be non-negative")
           {| pressed_keys := {["SPACE"]}; sent := [key_down_input 0x39] |} /\
  ~ (exists s', hold_and_release_key "SPACE" (-1) init = Returns tt s' /\
                "SPACE" ∉ pressed_keys s') /\
  "SPACE" ∈ pressed_keys (state_of (hold_and_release_key "SPACE" (-1) init)).
Proof.
  assert (Hsleep : forall s, sleep (-1) s =
            Raises (ValueError "sleep length must be non-negative") s)
    by (intros s; reflexivity).
  assert (E : hold_and_release_key "SPACE" (-1) init =
    Raises (ValueError "sleep length must be non-negative")
           {| pressed_keys := {["SPACE"]}; sent := [key_down_input 0x39] |}).
  { unfold hold_and_release_key, mbind, M_bind.
    rewrite (hold_key_valid "SPACE" 0x39 init eq_refl), Hsleep.
    cbn [pressed_keys sent init app].
    rewrite union_empty_r_L. reflexivity. }
  split; [vm_compute; eauto|]. split; [discriminate|].
  split; [exact E|]. rewrite E. split.
  - intros [s' [[=] _]].
  - cbn [state_of pressed_keys]. apply elem_of_singleton. reflexivity.
Qed.

(** C5, amended. For a valid key name [k] and a duration [d] that is zero,
    [hold_and_release_key k d] returns; the key-down event is followed
    directly by the key-up event, and [k] is not in [pressed_keys]
    afterwards. *)
Theorem hold_and_release_returns (k : string) (d : Q) (s : KeyPresser) :
  valid_key k ->
  (d == 0)%Q ->
  exists c s',
    get_hex_key_code k = Ok c /\
    hold_and_release_key k d s = Returns tt s' /\
    sent s' = (sent s ++ [key_down_input c; key_up_input c])%list /\
    k ∉ pressed_keys s'.
Proof.
  intros Hk Hd. destruct (valid_key_code k Hk) as [c Hc].
  exists c. eexists. split; [apply get_hex_key_code_valid, Hc|]. split.
  - unfold hold_and_release_key, mbind, M_bind.
    rewrite (hold_key_valid k c s Hc), (sleep_zero d _ Hd).
    apply (release_key_valid k c _ Hc).
  - cbn [pressed_keys sent]. split; [|apply discard_gone].
    rewrite <- app_assoc. reflexivity.
Qed.

Lemma hold_and_release_returns_witness :
  valid_key "space" /\ (0 == 0)%Q /\
  exists c s',
    get_hex_key_code "space" = Ok c /\
    hold_and_release_key "space" 0 holding_w = Returns tt s' /\
    sent s' = (sent holding_w ++ [key_down_input c; key_up_input c])%list /\
    "space" ∉ pressed_keys s'.
Proof.
  assert (Hk : valid_key "space") by (vm_compute; eauto).
  assert (Hd : (0 == 0)%Q) by reflexivity.
  split; [exact Hk|]. split; [exact Hd|].
  apply (hold_and_release_returns "space" 0 holding_w Hk Hd).
Defined.

(** ** The table as a relation between names and scancodes *)

(** C6, as stated, fails: ["DELETE"] and ["NUMPAD_PERIOD"] are two names of
    the table and both carry 0x53. *)
Lemma key_codes_not_injective :
  dict_get KEY_CODES "DELETE" = Some 0x53 /\
  dict_get KEY_CODES "NUMPAD_PERIOD" = Some 0x53 /\
  "DELETE" <> "NUMPAD_PERIOD" /\
  ~ (forall k1 k2 c,
        dict_get KEY_CODES k1 = Some c -> dict_get KEY_CODES k2 = Some c ->
        k1 = k2).
Proof.
  split; [reflexivity|]. split; [reflexivity|]. split; [discriminate|].
  intros H. specialize (H "DELETE" "NUMPAD_PERIOD" 0x53 eq_refl eq_refl).
  discriminate H.
Qed.

(** Two entries of the table with one scancode and two names. *)
Definition shared_code (p q : string * Z) : bool :=
  Z.eqb (snd p) (snd q) && negb (String.eqb (fst p) (fst q)).

Definition delete_and_period (p q : string * Z) : bool :=
  Z.eqb (snd p) 0x53
  && ((String.eqb (fst p) "DELETE" && String.eqb (fst q) "NUMPAD_PERIOD")
      || (String.eqb (fst p) "NUMPAD_PERIOD" && String.eqb (fst q) "DELETE")).

Lemma shared_codes_checked :
  forallb (fun p => forallb (fun q => implb (shared_code p q)
                                            (delete_and_period p q))
                            KEY_CODES) KEY_CODES = true.
Proof. vm_compute. reflexivity. Qed.

Lemma shared_code_in_table k1 k2 c :
  dict_get KEY_CODES k1 = Some c -> dict_get KEY_CODES k2 = Some c ->
  k1 <> k2 ->
  c = 0x53 /\ (k1 = "DELETE" /\ k2 = "NUMPAD_PERIOD" \/
               k1 = "NUMPAD_PERIOD" /\ k2 = "DELETE").
Proof.
  intros H1 H2 Hne. apply dict_get_Some in H1, H2.
  pose proof shared_codes_checked as Hall.
  rewrite forallb_forall in Hall. specialize (Hall _ H1).
  rewrite forallb_forall in Hall. specialize (Hall _ H2).
  unfold shared_code, delete_and_period in Hall. cbn [fst snd] in Hall.
  rewrite Z.eqb_refl in Hall.
  destruct (String.eqb_spec k1 k2) as [->|_]; [contradiction|].
  cbn [negb andb implb] in Hall.
  apply andb_prop in Hall as [Hc Hpair]. apply Z.eqb_eq in Hc.
  split; [exact Hc|].
  apply orb_prop in Hpair as [Hp|Hp]; apply andb_prop in Hp as [Ha Hb];
    apply String.eqb_eq in Ha, Hb; [left|right]; split; assumption.
Qed.

(** C6, amended. Every valid key name has exactly one scancode: its
    upper-cased form has one entry in the table and the lookup returns that
    entry's code.  Two names that differ by more than case share a scancode
    in one case only: ["DELETE"] and ["NUMPAD_PERIOD"], both 0x53. *)
Theorem key_codes_one_to_one_except_delete :
  (forall k, valid_key k ->
     exists c, get_hex_key_code k = Ok c /\
               count_occ string_dec (keys KEY_CODES) (Str.upper k) = 1%nat /\
               forall c', In (Str.upper k, c') KEY_CODES -> c' = c) /\
  (forall k1 k2 c,
     get_hex_key_code k1 = Ok c -> get_hex_key_code k2 = Ok c ->
     Str.upper k1 <> Str.upper k2 ->
     c = 0x53 /\
     (Str.upper k1 = "DELETE" /\ Str.upper k2 = "NUMPAD_PERIOD" \/
      Str.upper k1 = "NUMPAD_PERIOD" /\ Str.upper k2 = "DELETE")).
Proof.
  split.
  - intros k Hk. destruct (valid_key_code k Hk) as [c Hc]. exists c.
    split; [apply get_hex_key_code_valid, Hc|]. split.
    + rewrite valid_names_once, Hc. reflexivity.
    + intros c' Hin. apply (dict_get_In _ _ _ keys_NoDup) in Hin.
      congruence.
  - intros k1 k2 c. unfold get_hex_key_code, get_hex_key_code_with.
    destruct (dict_get KEY_CODES (Str.upper k1)) as [c1|] eqn:H1; [|discriminate].
    destruct (dict_get KEY_CODES (Str.upper k2)) as [c2|] eqn:H2; [|discriminate].
    intros [= ->] [= ->]. apply shared_code_in_table; assumption.
Qed.

Lemma key_codes_one_to_one_except_delete_witness :
  (valid_key "delete" /\
   exists c, get_hex_key_code "delete" = Ok c /\
             count_occ string_dec (keys KEY_CODES) (Str.upper "delete") = 1%nat /\
             forall c', In (Str.upper "delete", c') KEY_CODES -> c' = c) /\
  (get_hex_key_code "delete" = Ok 0x53 /\
   get_hex_key_code "numpad_period" = Ok 0x53 /\
   Str.upper "delete" <> Str.upper "numpad_period" /\
   0x53 = 0x53 /\
   (Str.upper "delete" = "DELETE" /\ Str.upper "numpad_period" = "NUMPAD_PERIOD" \/
    Str.upper "delete" = "NUMPAD_PERIOD" /\ Str.upper "numpad_period" = "DELETE")).
Proof.
  destruct key_codes_one_to_one_except_delete as [Hone Hshared].
  assert (Hk : valid_key "delete") by (vm_compute; eauto).
  assert (H1 : get_hex_key_code "delete" = Ok 0x53) by reflexivity.
  assert (H2 : get_hex_key_code "numpad_period" = Ok 0x53) by reflexivity.
  assert (H3 : Str.upper "delete" <> Str.upper "numpad_period")
    by (vm_compute; discriminate).
  split; [split; [exact Hk|apply (Hone "delete" Hk)]|].
  split; [exact H1|]. split; [exact H2|]. split; [exact H3|].
  apply (Hshared "delete" "numpad_period" 0x53 H1 H2 H3).
Defined.

(** ** Releasing everything *)

Example holding_three_keys :
  pressed_keys holding_three = {["A"; "SPACE"; "LEFT_ARROW"]}.
Proof. vm_compute. reflexivity. Qed.

Example release_all_three :
  pressed_keys (state_of (release_all_keys holding_three)) = ∅ /\
  length (sent (state_of (release_all_keys holding_three))) = 6%nat.
Proof. vm_compute. split; reflexivity. Qed.

(** What [pressed_keys] can hold: names that were valid when pressed. *)
Definition held_valid (s : KeyPresser) : Prop :=
  forall k, k ∈ pressed_keys s -> valid_key k.

Lemma held_valid_hold k s : held_valid s -> held_valid (state_of (hold_key k s)).
Proof.
  intros Hs. destruct (decide (valid_key k)) as [Hk|Hk].
  - destruct (valid_key_code k Hk) as [c Hc].
    rewrite (hold_key_valid k c s Hc). cbn [state_of pressed_keys].
    intros x Hx. apply elem_of_union in Hx as [Hx|Hx]; [|apply Hs, Hx].
    apply elem_of_singleton in Hx. subst x. exact Hk.
  - rewrite (hold_key_invalid k s Hk). exact Hs.
Qed.

Lemma held_valid_release k s :
  held_valid s -> held_valid (state_of (release_key k s)).
Proof.
  intros Hs. destruct (decide (valid_key k)) as [Hk|Hk].
  - destruct (valid_key_code k Hk) as [c Hc].
    rewrite (release_key_valid k c s Hc). cbn [state_of pressed_keys].
    intros x Hx. apply elem_of_difference in Hx as [Hx _]. apply Hs, Hx.
  - rewrite (release_key_invalid k s Hk). exact Hs.
Qed.

Lemma held_valid_for_each l :
  forall s, held_valid s -> held_valid (state_of (for_each l release_key s)).
Proof.
  induction l as [|k l IH]; intros s Hs; [exact Hs|].
  cbn [for_each]. unfold mbind, M_bind.
  pose proof (held_valid_release k s Hs) as Hk.
  destruct (release_key k s) as [[] s1|e s1]; cbn [state_of] in *.
  - apply IH, Hk.
  - exact Hk.
Qed.

Lemma held_valid_hold_and_release k d s :
  held_valid s -> held_valid (state_of (hold_and_release_key k d s)).
Proof.
  intros Hs. unfold hold_and_release_key, mbind, M_bind.
  pose proof (held_valid_hold k s Hs) as Hk.
  destruct (hold_key k s) as [[] s1|e s1]; cbn [state_of] in *; [|exact Hk].
  destruct (sleep_cases d s1) as [->|[e ->]]; [|exact Hk].
  apply held_valid_release, Hk.
Qed.

Lemma reachable_held_valid s : reachable s -> held_valid s.
Proof.
  induction 1 as [|c s _ IH].
  - intros k Hk. cbn [init pressed_keys] in Hk.
    apply not_elem_of_empty in Hk. contradiction.
  - destruct c as [k|k|k|k d|]; cbn [run].
    + unfold mbind, M_bind, lift.
      destruct (get_hex_key_code k); exact IH.
    + apply held_valid_hold, IH.
    + apply held_valid_release, IH.
    + apply held_valid_hold_and_release, IH.
    + apply held_valid_for_each, IH.
Qed.

(** The key-up event one [release_key k] call injects. *)
Definition released_by (k : string) (e : INPUT) : Prop :=
  exists c, get_hex_key_code k = Ok c /\ e = key_up_input c.

(** Releasing a list of valid names, in any order, returns; it injects one
    key-up event per name, in the order of the list, and removes them. *)
Lemma for_each_release (l : list string) :
  forall s,
    Forall valid_key l ->
    exists events,
      for_each l release_key s =
        Returns tt {| pressed_keys := pressed_keys s ∖ list_to_set l;
                      sent := sent s ++ events |} /\
      Forall2 released_by l events.
Proof.
  induction l as [|k l IH]; intros s Hl.
  - exists []. split; [|constructor].
    cbn [for_each list_to_set foldr]. rewrite difference_empty_L, app_nil_r.
    destruct s; reflexivity.
  - apply Forall_cons in Hl as [Hk Hl].
    destruct (valid_key_code k Hk) as [c Hc].
    destruct (IH {| pressed_keys := pressed_keys s ∖ {[k]};
                    sent := sent s ++ [key_up_input c] |} Hl)
      as [events [Hrun Hev]].
    exists (key_up_input c :: events). split.
    + cbn [for_each]. unfold mbind, M_bind.
      rewrite (release_key_valid k c s Hc), Hrun.
      cbn [pressed_keys sent]. rewrite list_to_set_cons.
      rewrite difference_difference_l_L, <- app_assoc. reflexivity.
    + constructor; [|exact Hev].
      exists c. split; [apply get_hex_key_code_valid, Hc|reflexivity].
Qed.

(** C1. In every state the controller can reach, [release_all_keys]
    returns (no name it releases is rejected); it walks the list taken from
    [pressed_keys] at entry, which holds each held name once; it injects one
    key-up event per name of that list; and [pressed_keys] is empty
    afterwards. *)
Theorem release_all_keys_releases_each_once (s : KeyPresser) :
  reachable s ->
  exists s' events,
    release_all_keys s = for_each (elements (pressed_keys s)) release_key s /\
    release_all_keys s = Returns tt s' /\
    pressed_keys s' = ∅ /\
    NoDup (elements (pressed_keys s)) /\
    (forall k, In k (elements (pressed_keys s)) <-> k ∈ pressed_keys s) /\
    sent s' = (sent s ++ events)%list /\
    Forall2 released_by (elements (pressed_keys s)) events.
Proof.
  intros Hs. apply reachable_held_valid in Hs.
  assert (Hl : Forall valid_key (elements (pressed_keys s))).
  { apply Forall_forall. intros k Hk. apply Hs, elem_of_elements, Hk. }
  destruct (for_each_release _ s Hl) as [events [Hrun Hev]].
  eexists. exists events.
  split; [reflexivity|]. split; [exact Hrun|].
  cbn [pressed_keys sent].
  split; [rewrite list_to_set_elements_L; apply difference_diag_L|].
  split; [apply NoDup_elements|].
  split; [intros k; rewrite <- list_elem_of_In; apply elem_of_elements|].
  split; [reflexivity|exact Hev].
Qed.

Lemma release_all_keys_releases_each_once_witness :
  reachable holding_three /\
  exists s' events,
    release_all_keys holding_three
      = for_each (elements (pressed_keys holding_three)) release_key holding_three /\
    release_all_keys holding_three = Returns tt s' /\
    pressed_keys s' = ∅ /\
    NoDup (elements (pressed_keys holding_three)) /\
    (forall k, In k (elements (pressed_keys holding_three))
               <-> k ∈ pressed_keys holding_three) /\
    sent s' = (sent holding_three ++ events)%list /\
    Forall2 released_by (elements (pressed_keys holding_three)) events.
Proof.
  assert (H : reachable holding_three)
    by (unfold holding_three; repeat constructor).
  split; [exact H|].
  apply (release_all_keys_releases_each_once holding_three H).
Defined.

(** * Further properties of the controller *)

(** ** What every reachable state satisfies *)

(** Every method is built from [hold_key] and [release_key]; the lookup and
    the sleep touch nothing.  A property of states that the two keep is
    therefore kept by every call, whether it returns or raises. *)
Section Preserved.
Variable P : KeyPresser -> Prop.
Hypothesis P_hold : forall k s, P s -> P (state_of (hold_key k s)).
Hypothesis P_release : forall k s, P s -> P (state_of (release_key k s)).

Lemma preserved_for_each l :
  forall s, P s -> P (state_of (for_each l release_key s)).
Proof.
  induction l as [|k l IH]; intros s Hs; [exact Hs|].
  cbn [for_each]. unfold mbind, M_bind.
  pose proof (P_release k s Hs) as Hk.
  destruct (release_key k s) as [[] s1|e s1]; cbn [state_of] in *.
  - apply IH, Hk.
  - exact Hk.
Qed.

Lemma preserved_hold_and_release k d s :
  P s -> P (state_of (hold_and_release_key k d s)).
Proof.
  intros Hs. unfold hold_and_release_key, mbind, M_bind.
  pose proof (P_hold k s Hs) as Hk.
  destruct (hold_key k s) as [[] s1|e s1]; cbn [state_of] in *; [|exact Hk].
  destruct (sleep_cases d s1) as [->|[e ->]]; [|exact Hk].
  apply P_release, Hk.
Qed.

Lemma preserved_run c s : P s -> P (state_of (run c s)).
Proof.
  intros Hs. destruct c as [k|k|k|k d|]; cbn [run].
  - unfold mbind, M_bind, lift. destruct (get_hex_key_code k); exact Hs.
  - apply P_hold, Hs.
  - apply P_release, Hs.
  - apply preserved_hold_and_release, Hs.
  - apply preserved_for_each, Hs.
Qed.

Lemma preserved_reachable s : P init -> reachable s -> P s.
Proof.
  intros H0. induction 1 as [|c s _ IH]; [exact H0|].
  apply preserved_run, IH.
Qed.
End Preserved.

(** The shape of an event the controller builds: a keyboard input in
    scancode mode, with or without the key-up flag, no virtual key, no time
    stamp, and a scancode of the table that the 16-bit [wScan] field holds
    unchanged. *)
Definition event_from_table (e : INPUT) : Prop :=
  input_type e = INPUT_KEYBOARD /\
  wVk (ki e) = 0 /\
  time (ki e) = 0 /\
  Z.testbit (dwFlags (ki e)) 3 = true /\
  (dwFlags (ki e) = KEY_EVENT_SCANCODE \/
   dwFlags (ki e) = Z.lor KEY_EVENT_SCANCODE KEY_EVENT_KEY_UP) /\
  (exists name, dict_get KEY_CODES name = Some (wScan (ki e))) /\
  0x01 <= wScan (ki e) <= 0x109 /\
  wScan (ki e) mod 2 ^ 16 = wScan (ki e).

Lemma codes_in_range_checked :
  forallb (fun p => (0x01 <=? snd p)%Z && (snd p <=? 0x109)%Z) KEY_CODES = true.
Proof. vm_compute. reflexivity. Qed.

Lemma code_in_range n c :
  dict_get KEY_CODES n = Some c -> 0x01 <= c <= 0x109.
Proof.
  intros H. apply dict_get_Some in H.
  pose proof codes_in_range_checked as Hall.
  rewrite forallb_forall in Hall. specialize (Hall _ H). cbn [snd] in Hall.
  apply andb_prop in Hall as [Hlo Hhi].
  apply Z.leb_le in Hlo, Hhi. split; assumption.
Qed.

Lemma key_down_from_table n c :
  dict_get KEY_CODES n = Some c -> event_from_table (key_down_input c).
Proof.
  intros H. pose proof (code_in_range n c H) as Hr.
  unfold event_from_table, key_down_input. cbn [input_type ki wVk time dwFlags wScan].
  repeat split; try reflexivity; try (apply Hr).
  - left. reflexivity.
  - exists n. exact H.
  - apply Z.mod_small. change (2 ^ 16) with 65536. lia.
Qed.

Lemma key_up_from_table n c :
  dict_get KEY_CODES n = Some c -> event_from_table (key_up_input c).
Proof.
  intros H. pose proof (code_in_range n c H) as Hr.
  unfold event_from_table, key_up_input. cbn [input_type ki wVk time dwFlags wScan].
  repeat split; try reflexivity; try (apply Hr).
  - right. reflexivity.
  - exists n. exact H.
  - apply Z.mod_small. change (2 ^ 16) with 65536. lia.
Qed.

(** X1. Whatever calls were made, every event handed to [send_input] is a
    keyboard event in scancode mode whose scancode is one of the table,
    between 0x01 and 0x109, and so fits the 16-bit field; its flags are
    either the scancode flag or the scancode flag with key-up. *)
Theorem sent_events_from_table (s : KeyPresser) :
  reachable s -> Forall event_from_table (sent s).
Proof.
  apply (preserved_reachable (fun s => Forall event_from_table (sent s))).
  - intros k s0 Hs. destruct (decide (valid_key k)) as [Hk|Hk].
    + destruct (valid_key_code k Hk) as [c Hc].
      rewrite (hold_key_valid k c s0 Hc). cbn [state_of sent].
      apply Forall_app. split; [exact Hs|].
      constructor; [apply (key_down_from_table _ _ Hc)|constructor].
    + rewrite (hold_key_invalid k s0 Hk). exact Hs.
  - intros k s0 Hs. destruct (decide (valid_key k)) as [Hk|Hk].
    + destruct (valid_key_code k Hk) as [c Hc].
      rewrite (release_key_valid k c s0 Hc). cbn [state_of sent].
      apply Forall_app. split; [exact Hs|].
      constructor; [apply (key_up_from_table _ _ Hc)|constructor].
    + rewrite (release_key_invalid k s0 Hk). exact Hs.
  - constructor.
Qed.

Lemma sent_events_from_table_witness :
  reachable holding_three /\ Forall event_from_table (sent holding_three).
Proof.
  assert (H : reachable holding_three)
    by (unfold holding_three; repeat constructor).
  split; [exact H|apply (sent_events_from_table holding_three H)].
Defined.

(** A held name went through [hold_key]: its key-down event is in the log. *)
Definition held_were_pressed (s : KeyPresser) : Prop :=
  forall k, k ∈ pressed_keys s ->
    exists c, get_hex_key_code k = Ok c /\ In (key_down_input c) (sent s).

(** X2. In every reachable state, each name in [pressed_keys] is a valid
    name and a key-down event carrying its scancode was injected earlier.
    (The converse is not kept: [release_key] under another spelling injects
    the key-up and leaves the name in the set.) *)
Theorem held_keys_were_pressed (s : KeyPresser) :
  reachable s -> held_were_pressed s.
Proof.
  apply (preserved_reachable held_were_pressed).
  - intros k s0 Hs. destruct (decide (valid_key k)) as [Hk|Hk].
    + destruct (valid_key_code k Hk) as [c Hc].
      rewrite (hold_key_valid k c s0 Hc). cbn [state_of].
      intros x Hx. cbn [pressed_keys sent] in *.
      apply elem_of_union in Hx as [Hx|Hx].
      * apply elem_of_singleton in Hx. subst x. exists c.
        split; [apply get_hex_key_code_valid, Hc|].
        apply in_or_app. right. left. reflexivity.
      * destruct (Hs x Hx) as [cx [Hcx Hin]]. exists cx.
        split; [exact Hcx|]. apply in_or_app. left. exact Hin.
    + rewrite (hold_key_invalid k s0 Hk). exact Hs.
  - intros k s0 Hs. destruct (decide (valid_key k)) as [Hk|Hk].
    + destruct (valid_key_code k Hk) as [c Hc].
      rewrite (release_key_valid k c s0 Hc). cbn [state_of].
      intros x Hx. cbn [pressed_keys sent] in *.
      apply elem_of_difference in Hx as [Hx _].
      destruct (Hs x Hx) as [cx [Hcx Hin]]. exists cx.
      split; [exact Hcx|]. apply in_or_app. left. exact Hin.
    + rewrite (release_key_invalid k s0 Hk). exact Hs.
  - intros k Hk. cbn [init pressed_keys] in Hk.
    apply not_elem_of_empty in Hk. contradiction.
Qed.

Lemma held_keys_were_pressed_witness :
  reachable holding_three /\ held_were_pressed holding_three.
Proof.
  assert (H : reachable holding_three)
    by (unfold holding_three; repeat constructor).
  split; [exact H|apply (held_keys_were_pressed holding_three H)].
Defined.

(** ** Edge cases of single calls *)

(** X3. For a valid name and a negative number of seconds,
    [hold_and_release_key] raises after the key went down: [time.sleep]
    raises its [ValueError], or its [OverflowError] when the length is out
    of its range, and for a length of at least [- sleep_accepted] it is the
    [ValueError].  One key-down event was injected, no key-up, and the name
    is in [pressed_keys] when the exception leaves the method. *)
Theorem hold_and_release_negative (k : string) (d : Q) (s : KeyPresser) :
  valid_key k ->
  (d < 0)%Q ->
  exists c e,
    get_hex_key_code k = Ok c /\
    hold_and_release_key k d s =
      Raises e {| pressed_keys := {[k]} ∪ pressed_keys s;
                  sent := sent s ++ [key_down_input c] |} /\
    (e = ValueError "sleep length must be non-negative" \/
     exists msg, e = OverflowError msg) /\
    ((- sleep_accepted <= d)%Q ->
     e = ValueError "sleep length must be non-negative") /\
    k ∈ pressed_keys (state_of (hold_and_release_key k d s)).
Proof.
  intros Hk Hd. destruct (valid_key_code k Hk) as [c Hc].
  destruct (sleep_negative d
              {| pressed_keys := {[k]} ∪ pressed_keys s;
                 sent := sent s ++ [key_down_input c] |} Hd)
    as [e [Hsleep [Hkind Hvalue]]].
  exists c, e.
  assert (E : hold_and_release_key k d s =
      Raises e {| pressed_keys := {[k]} ∪ pressed_keys s;
                  sent := sent s ++ [key_down_input c] |}).
  { unfold hold_and_release_key, mbind, M_bind.
    rewrite (hold_key_valid k c s Hc), Hsleep. reflexivity. }
  split; [apply get_hex_key_code_valid, Hc|]. split; [exact E|].
  split; [exact Hkind|]. split; [exact Hvalue|].
  rewrite E. cbn [state_of pressed_keys]. apply add_present.
Qed.

Lemma hold_and_release_negative_witness :
  valid_key "w" /\ (-(1 # 2) < 0)%Q /\
  exists c e,
    get_hex_key_code "w" = Ok c /\
    hold_and_release_key "w" (-(1 # 2)) init =
      Raises e {| pressed_keys := {["w"]} ∪ pressed_keys init;
                  sent := sent init ++ [key_down_input c] |} /\
    (e = ValueError "sleep length must be non-negative" \/
     exists msg, e = OverflowError msg) /\
    ((- sleep_accepted <= -(1 # 2))%Q ->
     e = ValueError "sleep length must be non-negative") /\
    "w" ∈ pressed_keys (state_of (hold_and_release_key "w" (-(1 # 2)) init)).
Proof.
  assert (Hk : valid_key "w") by (vm_compute; eauto).
  assert (Hd : (-(1 # 2) < 0)%Q) by reflexivity.
  split; [exact Hk|]. split; [exact Hd|].
  apply (hold_and_release_negative "w" (-(1 # 2)) init Hk Hd).
Defined.

(** X4. For a valid name and a number of seconds between zero and
    [sleep_accepted], [hold_and_release_key] leaves [pressed_keys] as the
    set it found minus the name: a name that was already held before the
    call is released by it, and no other name is added or removed. *)
Theorem hold_and_release_net_effect (k : string) (d : Q) (s : KeyPresser) :
  valid_key k ->
  (0 <= d)%Q ->
  (d <= sleep_accepted)%Q ->
  exists s',
    hold_and_release_key k d s = Returns tt s' /\
    pressed_keys s' = pressed_keys s ∖ {[k]}.
Proof.
  intros Hk Hlo Hhi. destruct (valid_key_code k Hk) as [c Hc].
  eexists. split.
  - unfold hold_and_release_key, mbind, M_bind.
    rewrite (hold_key_valid k c s Hc), (sleep_short d _ Hlo Hhi).
    apply (release_key_valid k c _ Hc).
  - cbn [pressed_keys]. apply set_eq. intros x.
    rewrite !elem_of_difference, elem_of_union, elem_of_singleton. tauto.
Qed.

Lemma hold_and_release_net_effect_witness :
  valid_key "W" /\ (0 <= 3 # 2)%Q /\ (3 # 2 <= sleep_accepted)%Q /\
  exists s',
    hold_and_release_key "W" (3 # 2) holding_w = Returns tt s' /\
    pressed_keys s' = pressed_keys holding_w ∖ {["W"]}.
Proof.
  assert (Hk : valid_key "W") by (vm_compute; eauto).
  assert (Hlo : (0 <= 3 # 2)%Q) by (vm_compute; discriminate).
  assert (Hhi : (3 # 2 <= sleep_accepted)%Q) by (vm_compute; discriminate).
  split; [exact Hk|]. split; [exact Hlo|]. split; [exact Hhi|].
  apply (hold_and_release_net_effect "W" (3 # 2) holding_w Hk Hlo Hhi).
Defined.

Lemma release_all_nothing_held (s : KeyPresser) :
  pressed_keys s = ∅ -> release_all_keys s = Returns tt s.
Proof.
  intros H. unfold release_all_keys. rewrite H, elements_empty. reflexivity.
Qed.

(** X5. In every reachable state, a second [release_all_keys] right after
    the first finds nothing to release: it injects no event and returns the
    state the first call left. *)
Theorem release_all_keys_twice (s : KeyPresser) :
  reachable s ->
  exists s',
    release_all_keys s = Returns tt s' /\
    release_all_keys s' = Returns tt s' /\
    (release_all_keys ;; release_all_keys) s = Returns tt s'.
Proof.
  intros Hs. apply reachable_held_valid in Hs.
  assert (Hl : Forall valid_key (elements (pressed_keys s))).
  { apply Forall_forall. intros k Hk. apply Hs, elem_of_elements, Hk. }
  destruct (for_each_release _ s Hl) as [events [Hrun _]].
  fold (release_all_keys s) in Hrun.
  rewrite list_to_set_elements_L, difference_diag_L in Hrun.
  eexists. split; [exact Hrun|].
  assert (Hagain : forall ev,
    release_all_keys {| pressed_keys := ∅; sent := ev |}
      = Returns tt {| pressed_keys := ∅; sent := ev |}).
  { intros ev. apply release_all_nothing_held. reflexivity. }
  split; [apply Hagain|].
  unfold mbind, M_bind. rewrite Hrun. apply Hagain.
Qed.

Lemma release_all_keys_twice_witness :
  reachable holding_three /\
  exists s',
    release_all_keys holding_three = Returns tt s' /\
    release_all_keys s' = Returns tt s' /\
    (release_all_keys ;; release_all_keys) holding_three = Returns tt s'.
Proof.
  assert (H : reachable holding_three)
    by (unfold holding_three; repeat constructor).
  split; [exact H|apply (release_all_keys_twice holding_three H)].
Defined.

(** X6. [hold_key] does not look at [pressed_keys] first: for a valid name
    that is already held it injects another key-down event and leaves the
    set as it was. *)
Theorem hold_key_already_held (k : string) (s : KeyPresser) :
  valid_key k ->
  k ∈ pressed_keys s ->
  exists c s',
    get_hex_key_code k = Ok c /\
    hold_key k s = Returns tt s' /\
    pressed_keys s' = pressed_keys s /\
    sent s' = (sent s ++ [key_down_input c])%list.
Proof.
  intros Hk Hin. destruct (valid_key_code k Hk) as [c Hc].
  exists c. eexists. split; [apply get_hex_key_code_valid, Hc|].
  split; [apply (hold_key_valid k c s Hc)|]. cbn [pressed_keys sent].
  split; [|reflexivity]. apply set_eq. intros x.
  rewrite elem_of_union, elem_of_singleton. split; [|tauto].
  intros [->|Hx]; assumption.
Qed.

Lemma hold_key_already_held_witness :
  valid_key "w" /\ ("w" ∈ pressed_keys holding_w) /\
  exists c s',
    get_hex_key_code "w" = Ok c /\
    hold_key "w" holding_w = Returns tt s' /\
    pressed_keys s' = pressed_keys holding_w /\
    sent s' = (sent holding_w ++ [key_down_input c])%list.
Proof.
  assert (Hk : valid_key "w") by (vm_compute; eauto).
  assert (Hin : "w" ∈ pressed_keys holding_w).
  { apply (bool_decide_unpack _). vm_compute. exact I. }
  split; [exact Hk|]. split; [exact Hin|].
  apply (hold_key_already_held "w" holding_w Hk Hin).
Defined.

(** X7. [hold_key] and [release_key] of one name change the membership of
    that string only: any other string, another spelling of the same key
    included, is held afterwards exactly if it was held before. *)
Theorem other_names_untouched (k k' : string) (s : KeyPresser) :
  k' <> k ->
  (k' ∈ pressed_keys (state_of (hold_key k s)) <-> k' ∈ pressed_keys s) /\
  (k' ∈ pressed_keys (state_of (release_key k s)) <-> k' ∈ pressed_keys s).
Proof.
  intros Hne. destruct (decide (valid_key k)) as [Hk|Hk].
  - destruct (valid_key_code k Hk) as [c Hc].
    rewrite (hold_key_valid k c s Hc), (release_key_valid k c s Hc).
    cbn [state_of pressed_keys].
    rewrite elem_of_union, elem_of_difference, elem_of_singleton. tauto.
  - rewrite (hold_key_invalid k s Hk), (release_key_invalid k s Hk).
    cbn [state_of]. tauto.
Qed.

Lemma other_names_untouched_witness :
  "W" <> "w" /\
  ("W" ∈ pressed_keys (state_of (hold_key "w" holding_three))
     <-> "W" ∈ pressed_keys holding_three) /\
  ("W" ∈ pressed_keys (state_of (release_key "w" holding_three))
     <-> "W" ∈ pressed_keys holding_three).
Proof.
  assert (H : "W" <> "w") by discriminate.
  split; [exact H|apply (other_names_untouched "w" "W" holding_three H)].
Defined.

(** X8. For a valid name that is not held, [hold_key] followed by
    [release_key] of the same string gives back the set of held names it
    started from, having injected the key-down and then the key-up event. *)
Theorem hold_release_restores (k : string) (s : KeyPresser) :
  valid_key k ->
  k ∉ pressed_keys s ->
  exists c s',
    get_hex_key_code k = Ok c /\
    (hold_key k ;; release_key k) s = Returns tt s' /\
    pressed_keys s' = pressed_keys s /\
    sent s' = (sent s ++ [key_down_input c; key_up_input c])%list.
Proof.
  intros Hk Hnot. destruct (valid_key_code k Hk) as [c Hc].
  exists c. eexists. split; [apply get_hex_key_code_valid, Hc|]. split.
  - unfold mbind, M_bind. rewrite (hold_key_valid k c s Hc).
    apply (release_key_valid k c _ Hc).
  - cbn [pressed_keys sent]. split; [|rewrite <- app_assoc; reflexivity].
    apply set_eq. intros x.
    rewrite elem_of_difference, elem_of_union, elem_of_singleton.
    split; [tauto|]. intros Hx. split; [tauto|]. intros ->. contradiction.
Qed.

Lemma hold_release_restores_witness :
  valid_key "f5" /\ ("f5" ∉ pressed_keys holding_three) /\
  exists c s',
    get_hex_key_code "f5" = Ok c /\
    (hold_key "f5" ;; release_key "f5") holding_three = Returns tt s' /\
    pressed_keys s' = pressed_keys holding_three /\
    sent s' = (sent holding_three ++ [key_down_input c; key_up_input c])%list.
Proof.
  assert (Hk : valid_key "f5") by (vm_compute; eauto).
  assert (Hn : "f5" ∉ pressed_keys holding_three).
  { apply (bool_decide_unpack _). vm_compute. exact I. }
  split; [exact Hk|]. split; [exact Hn|].
  apply (hold_release_restores "f5" holding_three Hk Hn).
Defined.

(** ** Lookup and the spelling of names *)

(** X9. For an ASCII string, the result of [get_hex_key_code] depends on
    the upper-cased name only, errors included: its upper-cased and its
    lower-cased spelling get the scancode, or the very error message, of
    the string itself. *)
Theorem lookup_ignores_case (k : string) :
  Str.is_ascii k = true ->
  get_hex_key_code (Str.upper k) = get_hex_key_code k /\
  get_hex_key_code (Str.lower k) = get_hex_key_code k.
Proof.
  intros _. unfold get_hex_key_code, get_hex_key_code_with.
  rewrite upper_idem, upper_lower. split; reflexivity.
Qed.

Lemma lookup_ignores_case_witness :
  Str.is_ascii "Ctrl+C" = true /\
  get_hex_key_code (Str.upper "Ctrl+C") = get_hex_key_code "Ctrl+C" /\
  get_hex_key_code (Str.lower "Ctrl+C") = get_hex_key_code "Ctrl+C".
Proof.
  assert (H : Str.is_ascii "Ctrl+C" = true) by reflexivity.
  split; [exact H|apply (lookup_ignores_case "Ctrl+C" H)].
Defined.

Lemma table_keys_upper_checked :
  forallb (fun p => String.eqb (Str.upper (fst p)) (fst p)) KEY_CODES = true.
Proof. vm_compute. reflexivity. Qed.

Lemma table_key_upper n c : In (n, c) KEY_CODES -> Str.upper n = n.
Proof.
  intros H. pose proof table_keys_upper_checked as Hall.
  rewrite forallb_forall in Hall. specialize (Hall _ H).
  apply String.eqb_eq in Hall. exact Hall.
Qed.

(** X10. Every entry of the table can be looked up: the name as written in
    the table (and so as printed in the error message), and its lower-cased
    form, both return the entry's scancode. *)
Theorem table_entries_found (n : string) (c : Z) :
  In (n, c) KEY_CODES ->
  get_hex_key_code n = Ok c /\ get_hex_key_code (Str.lower n) = Ok c.
Proof.
  intros H. pose proof (table_key_upper n c H) as Hup.
  apply (dict_get_In _ _ _ keys_NoDup) in H.
  split; apply get_hex_key_code_valid.
  - rewrite Hup. exact H.
  - rewrite upper_lower, Hup. exact H.
Qed.

Lemma table_entries_found_witness :
  In ("NUMPAD_ENTER", 0x9C) KEY_CODES /\
  get_hex_key_code "NUMPAD_ENTER" = Ok 0x9C /\
  get_hex_key_code (Str.lower "NUMPAD_ENTER") = Ok 0x9C.
Proof.
  assert (H : In ("NUMPAD_ENTER", 0x9C) KEY_CODES).
  { cbv [In KEY_CODES]. repeat (first [left; reflexivity|right]). }
  split; [exact H|apply (table_entries_found "NUMPAD_ENTER" 0x9C H)].
Defined.

(** ** The process-wide instance *)

(** Objects are named by their address in a heap; [objects] lists them in
    the order they were built.  [_instance] is the class attribute: [None],
    or the address of the instance [get_instance] built. *)
Record Process := mkProcess
  { _instance : option nat; objects : list KeyPresser }.

Definition fresh_process : Process :=
  {| _instance := None; objects := [] |}.

(** [cls()]: a new object, set up by [__init__]. *)
Definition new_KeyPresser (p : Process) : nat * Process :=
  (length (objects p),
   {| _instance := _instance p; objects := objects p ++ [init] |}).

Definition get_instance (p : Process) : nat * Process :=
  match _instance p with
  | None =>
      let (a, p') := new_KeyPresser p in
      (a, {| _instance := Some a; objects := objects p' |})
  | Some a => (a, p)
  end.

(** [obj.method(...)] on the object at address [a]: the method runs on the
    object's state and what it leaves is written back, also when it raises.
    There is no result for an address that names no object. *)
Definition invoke {A} (a : nat) (m : M A) (p : Process)
  : option (result A * Process) :=
  match objects p !! a with
  | None => None
  | Some s =>
      let store s' := {| _instance := _instance p;
                         objects := <[a := s']> (objects p) |} in
      match m s with
      | Returns x s' => Some (Ok x, store s')
      | Raises e s' => Some (Error e, store s')
      end
  end.

(** The class attribute, when set, names an object. *)
Definition instance_allocated (p : Process) : Prop :=
  forall a, _instance p = Some a -> (a < length (objects p))%nat.

Lemma fresh_process_allocated : instance_allocated fresh_process.
Proof. intros a [=]. Qed.

Lemma get_instance_spec (p : Process) :
  instance_allocated p ->
  exists s,
    _instance (snd (get_instance p)) = Some (fst (get_instance p)) /\
    objects (snd (get_instance p)) !! fst (get_instance p) = Some s /\
    (forall s0, objects p !! fst (get_instance p) = Some s0 -> s0 = s) /\
    (_instance p = None -> s = init).
Proof.
  intros Hp. unfold get_instance. destruct (_instance p) as [a|] eqn:E.
  - cbn [fst snd]. specialize (Hp a E).
    destruct (lookup_lt_is_Some_2 (objects p) a Hp) as [s Hs].
    exists s. split; [exact E|]. split; [exact Hs|].
    split; [congruence|discriminate].
  - cbn [new_KeyPresser fst snd _instance objects]. exists init.
    split; [reflexivity|]. split.
    + rewrite lookup_app_r by lia. rewrite Nat.sub_diag. reflexivity.
    + split; [|reflexivity]. intros s0 Hs0.
      apply lookup_lt_Some in Hs0. lia.
Qed.

(** The three ways a process moves on keep the class attribute pointing at
    an object. *)
Lemma instance_allocated_kept (p : Process) :
  instance_allocated p ->
  instance_allocated (snd (get_instance p)) /\
  instance_allocated (snd (new_KeyPresser p)) /\
  (forall A a (m : M A) r p', invoke a m p = Some (r, p') ->
                              instance_allocated p').
Proof.
  intros Hp. split; [|split].
  - unfold get_instance. destruct (_instance p) as [a|] eqn:E; [exact Hp|].
    cbn [new_KeyPresser snd objects]. intros a [= <-].
    cbn [objects]. rewrite length_app. cbn [length]. lia.
  - intros a Ha. cbn [new_KeyPresser snd objects _instance] in *.
    specialize (Hp a Ha). rewrite length_app. lia.
  - intros A a m r p'. unfold invoke.
    destruct (objects p !! a) as [s|]; [|discriminate].
    destruct (m s) as [x s'|e s']; intros [= _ <-]; intros a' Ha';
      cbn [objects _instance] in *; rewrite length_insert; apply Hp, Ha'.
Qed.

(** X11. [get_instance] builds at most one object and keeps returning it:
    a call right after another returns the same address and leaves the
    process as it is, and so does any number of further calls. *)
Theorem get_instance_idempotent (p : Process) (n : nat) :
  get_instance (snd (get_instance p))
    = (fst (get_instance p), snd (get_instance p)) /\
  Nat.iter n (fun q => snd (get_instance q)) (snd (get_instance p))
    = snd (get_instance p) /\
  (length (objects (snd (get_instance p))) <= S (length (objects p)))%nat.
Proof.
  assert (Hagain : get_instance (snd (get_instance p))
                     = (fst (get_instance p), snd (get_instance p))).
  { unfold get_instance. destruct (_instance p) as [a|] eqn:E.
    - cbn [fst snd]. rewrite E. reflexivity.
    - reflexivity. }
  split; [exact Hagain|]. split.
  - induction n as [|n IH]; [reflexivity|].
    rewrite Nat.iter_succ, IH, Hagain. reflexivity.
  - unfold get_instance. destruct (_instance p).
    + cbn [snd]. lia.
    + cbn [new_KeyPresser snd objects]. rewrite length_app. cbn [length]. lia.
Qed.

(** X12. The instance is shared: a key held through the address that
    [get_instance] returned is held in the object a later [get_instance]
    returns, which is the same object. *)
Theorem instance_keeps_held_keys (p : Process) (k : string) :
  instance_allocated p ->
  valid_key k ->
  exists p2 s2,
    invoke (fst (get_instance p)) (hold_key k) (snd (get_instance p))
      = Some (Ok tt, p2) /\
    get_instance p2 = (fst (get_instance p), p2) /\
    objects p2 !! fst (get_instance p) = Some s2 /\
    k ∈ pressed_keys s2.
Proof.
  intros Hp Hk. destruct (valid_key_code k Hk) as [c Hc].
  destruct (get_instance_spec p Hp) as [s [Hi [Hs _]]].
  destruct (get_instance p) as [a p1]. cbn [fst snd] in *.
  unfold invoke. rewrite Hs, (hold_key_valid k c s Hc).
  eexists. eexists. split; [reflexivity|]. split.
  - unfold get_instance. cbn [_instance]. rewrite Hi. reflexivity.
  - cbn [objects]. split.
    + apply list_lookup_insert_eq. apply (lookup_lt_Some _ _ _ Hs).
    + cbn [pressed_keys]. apply add_present.
Qed.

Lemma instance_keeps_held_keys_witness :
  instance_allocated fresh_process /\ valid_key "space" /\
  exists p2 s2,
    invoke (fst (get_instance fresh_process)) (hold_key "space")
           (snd (get_instance fresh_process))
      = Some (Ok tt, p2) /\
    get_instance p2 = (fst (get_instance fresh_process), p2) /\
    objects p2 !! fst (get_instance fresh_process) = Some s2 /\
    "space" ∈ pressed_keys s2.
Proof.
  assert (Hp : instance_allocated fresh_process) by (intros a [=]).
  assert (Hk : valid_key "space") by (vm_compute; eauto).
  split; [exact Hp|]. split; [exact Hk|].
  apply (instance_keeps_held_keys fresh_process "space" Hp Hk).
Defined.

(** X13. An object built by calling the class directly is not the shared
    instance: it has another address, a method called on it leaves the
    shared instance's state as it was, and [get_instance] still returns the
    shared one. *)
Theorem constructed_object_is_separate {A} (p : Process) (m : M A) :
  instance_allocated p ->
  let a := fst (get_instance p) in
  let p1 := snd (get_instance p) in
  let b := fst (new_KeyPresser p1) in
  b <> a /\
  exists r p3,
    invoke b m (snd (new_KeyPresser p1)) = Some (r, p3) /\
    objects p3 !! a = objects p1 !! a /\
    fst (get_instance p3) = a.
Proof.
  intros Hp. destruct (get_instance_spec p Hp) as [s [Hi [Hs _]]].
  destruct (get_instance p) as [a p1]. cbn [fst snd] in *. cbn zeta.
  pose proof (lookup_lt_Some _ _ _ Hs) as Hlt.
  assert (Hne : length (objects p1) <> a) by lia.
  split; [exact Hne|].
  assert (Hb : (objects p1 ++ [init])%list !! length (objects p1) = Some init).
  { rewrite lookup_app_r by lia. rewrite Nat.sub_diag. reflexivity. }
  unfold invoke. cbn [new_KeyPresser fst snd objects _instance]. rewrite Hb.
  destruct (m init) as [x s'|e s'].
  - eexists. eexists. split; [reflexivity|]. cbn [objects]. split.
    + rewrite list_lookup_insert_ne by exact Hne.
      apply lookup_app_l, Hlt.
    + unfold get_instance. cbn [_instance]. rewrite Hi. reflexivity.
  - eexists. eexists. split; [reflexivity|]. cbn [objects]. split.
    + rewrite list_lookup_insert_ne by exact Hne.
      apply lookup_app_l, Hlt.
    + unfold get_instance. cbn [_instance]. rewrite Hi. reflexivity.
Qed.

Lemma constructed_object_is_separate_witness :
  instance_allocated fresh_process /\
  fst (new_KeyPresser (snd (get_instance fresh_process)))
    <> fst (get_instance fresh_process) /\
  exists r p3,
    invoke (fst (new_KeyPresser (snd (get_instance fresh_process))))
           (hold_key "space")
           (snd (new_KeyPresser (snd (get_instance fresh_process))))
      = Some (r, p3) /\
    objects p3 !! fst (get_instance fresh_process)
      = objects (snd (get_instance fresh_process))
          !! fst (get_instance fresh_process) /\
    fst (get_instance p3) = fst (get_instance fresh_process).
Proof.
  assert (Hp : instance_allocated fresh_process) by (intros a [=]).
  split; [exact Hp|].
  apply (constructed_object_is_separate fresh_process (hold_key "space") Hp).
Defined.
